(** * mjpeg_creator: frame validation, SOF0 dimension check and MJPEG writer

    A shallow embedding of [src/mjpeg_creator.cpp].

    - A [std::vector<uint8_t>] is a [list byte]; [operator[]] is a read that
      leaves the model with [OutOfBounds] when the index is not below
      [size()] (the C++ read is undefined there).
    - [size_t] values are integers in [0, 2^64); subtraction and addition on
      them wrap around, written out with [wrap64].
    - [uint32_t] fields are integers in [0, 2^32), written out with [wrap32].
    - The writer object is a record; member functions pass it explicitly.
      Its [output] field is the content of the file behind the
      [std::ofstream]; [output.write] is taken to succeed, as the code
      never tests the stream after writing.
      What a call prints on [std::cerr] is returned beside its result. *)

From Stdlib Require Import ZArith List Bool Lia String.
From Stdlib Require Import Init.Byte Strings.Byte.
Import ListNotations.
Local Open Scope Z_scope.

(** ** Outcomes of code that indexes a vector *)

Inductive outcome (A : Type) : Type :=
| Ok (a : A)
| OutOfBounds (idx : Z)   (* operator[] applied at [idx >= size()] *)
| OutOfFuel.              (* loop budget of the model exhausted    *)
Arguments Ok {A} a.
Arguments OutOfBounds {A} idx.
Arguments OutOfFuel {A}.

Definition bind {A B : Type} (m : outcome A) (k : A -> outcome B) : outcome B :=
  match m with
  | Ok a => k a
  | OutOfBounds i => OutOfBounds i
  | OutOfFuel => OutOfFuel
  end.

Notation "x <- m ;; k" := (bind m (fun x => k))
  (at level 61, m at next level, right associativity).

(** Short-circuit [a || b] and [a && b] over reads that may fault: the right
    operand is evaluated only when the left one does not decide. *)
Definition orelse (a b : outcome bool) : outcome bool :=
  x <- a ;; if x then Ok true else b.
Definition andalso (a b : outcome bool) : outcome bool :=
  x <- a ;; if x then b else Ok false.

(** ** Machine integers *)

Definition wrap64 (z : Z) : Z := z mod 2 ^ 64.
Definition wrap32 (z : Z) : Z := z mod 2 ^ 32.

(** A [uint8_t] promoted to [int]. *)
Definition u8 (b : byte) : Z := Z.of_N (Byte.to_N b).

(** ** std::vector<uint8_t> *)

Definition vec := list byte.

Definition size (data : vec) : Z := Z.of_nat (List.length data).

(** [data[idx]] for a [size_t] index. *)
Definition at_ (data : vec) (idx : Z) : outcome Z :=
  if (0 <=? idx) && (idx <? size data) then
    match nth_error data (Z.to_nat idx) with
    | Some b => Ok (u8 b)
    | None => OutOfBounds idx
    end
  else OutOfBounds idx.

(** A vector the machine can hold: its size is a [size_t]. *)
Definition fits (data : vec) : Prop := size data < 2 ^ 64.

(** ** JPEGValidator::isValidJPEG (lines 13-23) *)

Definition ne (a : outcome Z) (c : Z) : outcome bool :=
  x <- a ;; Ok (negb (x =? c)).
Definition eq (a : outcome Z) (c : Z) : outcome bool :=
  x <- a ;; Ok (x =? c).

Definition isValidJPEG (data : vec) : outcome bool :=
  if size data <? 4 then Ok false else
  soi <- orelse (ne (at_ data 0) 0xFF) (ne (at_ data 1) 0xD8) ;;
  if soi then Ok false else
  eoi <- orelse (ne (at_ data (wrap64 (size data - 2))) 0xFF)
                (ne (at_ data (wrap64 (size data - 1))) 0xD9) ;;
  if eoi then Ok false else
  Ok true.

(** ** MJPEGWriter (lines 26-85) *)

Record MJPEGWriter : Type := mkWriter {
  output : list byte;     (* bytes written to the std::ofstream so far *)
  first_frame : bool;
  width : Z;
  height : Z
}.

(** The constructor's member initialisers, once the file is open. *)
Definition new_writer : MJPEGWriter :=
  {| output := []; first_frame := true; width := 0; height := 0 |}.

(** MJPEGWriter::MJPEGWriter (lines 54-59): [opened] is what
    [output.is_open()] answers after [output.open]. *)
Definition MJPEGWriter_ctor (filename : string) (opened : bool)
  : string + MJPEGWriter :=
  if negb opened
  then inl ("Could not open output file: " ++ filename)%string
  else inr new_writer.

(** MJPEGWriter::getDimensions (lines 82-84). *)
Definition getDimensions (w : MJPEGWriter) : Z * Z := (width w, height w).

(** The body of the [if] at lines 36-48, entered when the marker test at
    offset [i] succeeded: decode both fields, then either record them
    (first frame) or compare them with the recorded ones. *)
Definition on_sof0 (w : MJPEGWriter) (data : vec) (i : Z)
  : outcome (MJPEGWriter * bool) :=
  h1 <- at_ data (wrap64 (i + 5)) ;;
  h2 <- at_ data (wrap64 (i + 6)) ;;
  let frame_height := wrap32 (Z.lor (Z.shiftl h1 8) h2) in
  w1 <- at_ data (wrap64 (i + 7)) ;;
  w2 <- at_ data (wrap64 (i + 8)) ;;
  let frame_width := wrap32 (Z.lor (Z.shiftl w1 8) w2) in
  if first_frame w then
    Ok ({| output := output w; first_frame := false;
           width := frame_width; height := frame_height |}, true)
  else
    Ok (w, (frame_width =? width w) && (frame_height =? height w)).

(** The [for] loop of lines 35-49 from index [i] on; [limit] is the value of
    [jpeg_data.size() - 8] in [size_t]. *)
Fixpoint sof0_loop (fuel : nat) (w : MJPEGWriter) (data : vec) (limit i : Z)
  : outcome (MJPEGWriter * bool) :=
  if i <? limit then
    hit <- andalso (eq (at_ data i) 0xFF) (eq (at_ data (wrap64 (i + 1))) 0xC0) ;;
    if hit then on_sof0 w data i
    else match fuel with
         | O => OutOfFuel
         | S fuel' => sof0_loop fuel' w data limit (wrap64 (i + 1))
         end
  else Ok (w, false).

(** MJPEGWriter::validateDimensions (lines 33-51).  Every iteration that
    continues has read [jpeg_data[i]] inside the vector, so [size()]
    continuations are a budget the loop cannot use up. *)
Definition validateDimensions (w : MJPEGWriter) (data : vec)
  : outcome (MJPEGWriter * bool) :=
  sof0_loop (List.length data) w data (wrap64 (size data - 8)) 0.

Definition msg_invalid : string := "Invalid JPEG data detected".
Definition msg_dimensions : string :=
  "Frame dimensions mismatch or SOF0 marker not found".

(** What one [addFrame] call hands back: the writer afterwards, the returned
    [bool] and the lines it put on [std::cerr]. *)
Record added : Type := mkAdded {
  writer : MJPEGWriter;
  ret : bool;
  cerr : list string
}.

Definition write (w : MJPEGWriter) (data : vec) : MJPEGWriter :=
  {| output := output w ++ data; first_frame := first_frame w;
     width := width w; height := height w |}.

(** MJPEGWriter::addFrame (lines 67-80). *)
Definition addFrame (w : MJPEGWriter) (jpeg_data : vec) : outcome added :=
  valid <- isValidJPEG jpeg_data ;;
  if negb valid then Ok (mkAdded w false [msg_invalid]) else
  r <- validateDimensions w jpeg_data ;;
  let '(w', same) := r in
  if negb same then Ok (mkAdded w' false [msg_dimensions]) else
  Ok (mkAdded (write w' jpeg_data) true []).

(** Successive [addFrame] calls on one writer, in the order the buffers are
    offered, keeping what each call returned. *)
Fixpoint addFrames (w : MJPEGWriter) (bufs : list vec)
  : outcome (MJPEGWriter * list bool) :=
  match bufs with
  | [] => Ok (w, [])
  | d :: rest =>
      a <- addFrame w d ;;
      r <- addFrames (writer a) rest ;;
      Ok (fst r, ret a :: snd r)
  end.

(** The frame loop of [main] (lines 132-143) over files already read by
    [readFile]: each file is the text that [<< jpeg_file.filename()] prints
    and the bytes read.  [processed] counts the accepted frames; a refused
    one is reported by file name on [std::cerr] after [addFrame]'s own
    line.  The progress lines on [std::cout] are left out. *)
Fixpoint process_files (w : MJPEGWriter) (processed : nat)
  (files : list (string * vec)) : outcome (MJPEGWriter * nat * list string) :=
  match files with
  | [] => Ok (w, processed, [])
  | (name, jpeg_data) :: rest =>
      a <- addFrame w jpeg_data ;;
      let processed' := if ret a then S processed else processed in
      let lines := if ret a then cerr a
                   else cerr a ++ [("Failed to add frame: " ++ name)%string] in
      r <- process_files (writer a) processed' rest ;;
      Ok (fst (fst r), snd (fst r), lines ++ snd r)
  end.

(** The frames among [bufs] whose call returned [true]. *)
Fixpoint accepted (bufs : list vec) (flags : list bool) : list vec :=
  match bufs, flags with
  | d :: bufs', b :: flags' =>
      if b then d :: accepted bufs' flags' else accepted bufs' flags'
  | _, _ => []
  end.

(** ** The behaviour the specification words describe

    These definitions follow the specification text, not the code; the
    theorems below compare the code with them. *)

Module Spec.

Inductive RejectReason : Type :=
  | InvalidStructure
  | DimensionsUnavailable
  | DimensionMismatch.

  (** Section 4.1: length at least 4, start code first, end code last. *)
Definition is_valid (buffer : vec) : bool :=
    match buffer with
    | a :: b :: _ :: _ :: _ =>
        Byte.eqb a xff && Byte.eqb b xd8 &&
        match rev buffer with
        | z :: y :: _ => Byte.eqb y xff && Byte.eqb z xd9
        | _ => false
        end
    | _ => false
    end.

  (** The two-byte sequence (0xFF, 0xC0) sits at offset [i]. *)
Definition marker_at (buffer : vec) (i : nat) : bool :=
    match nth_error buffer i, nth_error buffer (S i) with
    | Some a, Some b => Byte.eqb a xff && Byte.eqb b xc0
    | _, _ => false
    end.

  (** Forward search over [n] offsets starting at [i]. *)
Fixpoint find_from (buffer : vec) (n i : nat) : option nat :=
    match n with
    | O => None
    | S n' => if marker_at buffer i then Some i
              else find_from buffer n' (S i)
    end.

  (** Section 4.2: the scan window stops before the last 8 bytes. *)
Definition window (buffer : vec) : nat := (List.length buffer - 8)%nat.

Definition find_marker (buffer : vec) : option nat :=
    find_from buffer (window buffer) 0.

  (** Big-endian 16-bit value of the bytes at offsets [k] and [k+1]. *)
Definition be16 (buffer : vec) (k : nat) : Z :=
    u8 (nth k buffer x00) * 256 + u8 (nth (S k) buffer x00).

  (** Section 4.2: (width, height) decoded at the first marker. *)
Definition extract_dimensions (buffer : vec) : option (Z * Z) :=
    match find_marker buffer with
    | Some i => Some (be16 buffer (i + 7), be16 buffer (i + 5))
    | None => None
    end.

  (** Section 4.3, steps 1-5: the reject reason, if any, for [buffer]
      offered to a writer whose reference dimensions are [reference]. *)
Definition reject_reason (reference : option (Z * Z)) (buffer : vec)
    : option RejectReason :=
    if negb (is_valid buffer) then Some InvalidStructure else
    match extract_dimensions buffer with
    | None => Some DimensionsUnavailable
    | Some (wd, ht) =>
        match reference with
        | None => None
        | Some (rw, rh) =>
            if (wd =? rw) && (ht =? rh) then None
            else Some DimensionMismatch
        end
    end.

  (** The marker's first occurrence inside the scan window is at [i]. *)
Definition first_marker_at (buffer : vec) (i : nat) : Prop :=
    (i < window buffer)%nat /\ marker_at buffer i = true /\
    forall j, (j < i)%nat -> marker_at buffer j = false.

End Spec.

(** The writer's reference dimensions: unset until the first accepted
    frame, then the recorded pair. *)
Definition reference_dimensions (w : MJPEGWriter) : option (Z * Z) :=
  if first_frame w then None else Some (width w, height w).

(** The writer and result after the marker was met at offset [i], with
    both fields decoded inside the vector. *)
Definition matched (w : MJPEGWriter) (data : vec) (i : nat)
  : MJPEGWriter * bool :=
  let frame_height := Spec.be16 data (i + 5) in
  let frame_width := Spec.be16 data (i + 7) in
  if first_frame w then
    ({| output := output w; first_frame := false;
        width := frame_width; height := frame_height |}, true)
  else (w, (frame_width =? width w) && (frame_height =? height w)).

(** The writer once [data]'s dimensions are recorded, if it had none. *)
Definition record_dimensions (w : MJPEGWriter) (data : vec) : MJPEGWriter :=
  if first_frame w then
    match Spec.extract_dimensions data with
    | Some (wd, ht) => {| output := output w; first_frame := false;
                          width := wd; height := ht |}
    | None => w
    end
  else w.

(** What section 4.3 lets the caller of the code see, by reject reason. *)
Definition expected (w : MJPEGWriter) (data : vec) : added :=
  match Spec.reject_reason (reference_dimensions w) data with
  | Some Spec.InvalidStructure => mkAdded w false [msg_invalid]
  | Some Spec.DimensionsUnavailable => mkAdded w false [msg_dimensions]
  | Some Spec.DimensionMismatch => mkAdded w false [msg_dimensions]
  | None => mkAdded (write (record_dimensions w data) data) true []
  end.

(** The frames on which the scan keeps inside the vector. *)
Definition scan_in_bounds (data : vec) : Prop :=
  Spec.is_valid data = true -> (8 <= List.length data)%nat.

(** ** Sample frames *)

(** The empty-payload frame: start code, end code. *)
Definition frame_empty : vec := [xff; xd8; xff; xd9].

(** SOI, an SOF0 segment header declaring [ht] x [wd] (big-endian 16-bit
    each, after a 2-byte length and the precision byte), EOI. *)
Definition frame_of (ht_hi ht_lo wd_hi wd_lo : byte) : vec :=
  [xff; xd8; xff; xc0; x00; x11; x08; ht_hi; ht_lo; wd_hi; wd_lo; xff; xd9].

Definition frame_640x480 : vec := frame_of x01 xe0 x02 x80.
Definition frame_320x240 : vec := frame_of x00 xf0 x01 x40.
Definition frame_0x0 : vec := frame_of x00 x00 x00 x00.

(** SOI, the head of a JFIF APP0 segment, EOI: no SOF0 marker. *)
Definition frame_no_sof0 : vec :=
  [xff; xd8; xff; xe0; x00; x10; x4a; x46; x49; x46; x00; xff; xd9].

(** Not a JPEG at all. *)
Definition frame_garbage : vec := [x00; x01; x02; x03; x04].

(** Start and end code around three payload bytes: 7 bytes in all. *)
Definition frame_7_bytes : vec := [xff; xd8; xff; xc0; x00; xff; xd9].

(** Start and end code around four payload bytes: 8 bytes in all. *)
Definition frame_8_bytes : vec := [xff; xd8; xff; xc0; x00; x11; xff; xd9].

(** A writer that has accepted one 640x480 frame. *)
Definition writer_640x480 : MJPEGWriter :=
  {| output := frame_640x480; first_frame := false;
     width := 640; height := 480 |}.

(** * Verification *)

(** ** Bytes and machine arithmetic *)

Lemma u8_range (b : byte) : 0 <= u8 b < 256.
Proof.
  unfold u8. pose proof (Byte.to_N_bounded b) as Hb. lia.
Qed.

Lemma u8_inj (b c : byte) : u8 b = u8 c -> b = c.
Proof.
  unfold u8. intros H. apply N2Z.inj in H.
  pose proof (Byte.of_to_N b) as Hb. rewrite H, Byte.of_to_N in Hb.
  congruence.
Qed.

Lemma u8_eqb (b c : byte) : (u8 b =? u8 c) = Byte.eqb b c.
Proof.
  destruct (Byte.eqb b c) eqn:E.
  - apply Byte.byte_dec_bl in E. subst. apply Z.eqb_refl.
  - apply Z.eqb_neq. intros H. apply u8_inj in H.
    apply Byte.eqb_false in E. contradiction.
Qed.

Lemma wrap64_small (z : Z) : 0 <= z < 2 ^ 64 -> wrap64 z = z.
Proof. intros H. unfold wrap64. apply Z.mod_small. exact H. Qed.

Lemma wrap64_neg (z : Z) : - 2 ^ 64 <= z < 0 -> wrap64 z = z + 2 ^ 64.
Proof.
  intros H. unfold wrap64.
  symmetry. apply Z.mod_unique with (q := -1); lia.
Qed.

(** [(hi << 8) | lo] on two promoted bytes is the big-endian 16-bit value,
    and it fits a [uint32_t] unchanged. *)
Lemma shift_or_bytes (hi lo : Z) :
  0 <= hi < 256 -> 0 <= lo < 256 ->
  wrap32 (Z.lor (Z.shiftl hi 8) lo) = hi * 256 + lo.
Proof.
  intros Hhi Hlo.
  assert (Hland : Z.land (Z.shiftl hi 8) lo = 0).
  { apply Z.bits_inj'. intros n Hn.
    rewrite Z.land_spec, Z.bits_0.
    destruct (Z.ltb_spec n 8) as [Hlt | Hge].
    - rewrite Z.shiftl_spec_low by lia. reflexivity.
    - assert (Z.testbit lo n = false) as ->.
      { destruct (Z.eq_dec lo 0) as [-> | Hnz]; [apply Z.bits_0 |].
        apply Z.bits_above_log2; [lia |].
        apply Z.log2_lt_pow2; [lia |].
        apply Z.lt_le_trans with (2 ^ 8); [lia |].
        apply Z.pow_le_mono_r; lia. }
      apply andb_false_r. }
  rewrite <- Z.lxor_lor by exact Hland.
  rewrite <- Z.add_nocarry_lxor by exact Hland.
  rewrite Z.shiftl_mul_pow2 by lia.
  unfold wrap32. rewrite Z.mod_small; lia.
Qed.

(** ** Vector reads *)

Lemma size_nonneg (data : vec) : 0 <= size data.
Proof. unfold size. lia. Qed.

Lemma at_inside (data : vec) (idx : Z) :
  0 <= idx < size data ->
  at_ data idx = Ok (u8 (nth (Z.to_nat idx) data x00)).
Proof.
  intros H. unfold at_.
  assert ((0 <=? idx) && (idx <? size data) = true) as ->.
  { apply andb_true_intro. split; [apply Z.leb_le | apply Z.ltb_lt]; lia. }
  destruct (nth_error data (Z.to_nat idx)) as [b |] eqn:E.
  - rewrite (nth_error_nth _ _ x00 E). reflexivity.
  - apply nth_error_None in E. unfold size in H. lia.
Qed.

Lemma at_outside (data : vec) (idx : Z) :
  size data <= idx -> at_ data idx = OutOfBounds idx.
Proof.
  intros H. unfold at_.
  assert ((idx <? size data) = false) as -> by (apply Z.ltb_ge; lia).
  rewrite andb_false_r. reflexivity.
Qed.

Lemma at_nat (data : vec) (i : nat) :
  (i < List.length data)%nat ->
  at_ data (Z.of_nat i) = Ok (u8 (nth i data x00)).
Proof.
  intros H. rewrite at_inside by (unfold size; lia).
  rewrite Nat2Z.id. reflexivity.
Qed.

(** ** isValidJPEG *)

Lemma rev_last_two (l : vec) :
  (2 <= List.length l)%nat ->
  exists tl, rev l = nth (List.length l - 1) l x00
                     :: nth (List.length l - 2) l x00 :: tl.
Proof.
  intros H.
  pose proof (length_rev l) as HL.
  pose proof (rev_nth l x00) as HN.
  destruct (rev l) as [| z [| y tl]] eqn:R; simpl in HL; try lia.
  exists tl.
  rewrite <- (HN 0%nat) by lia. rewrite <- (HN 1%nat) by lia. reflexivity.
Qed.

(** The validator never reads outside the vector, and computes the
    boundary check of section 4.1. *)
Lemma isValidJPEG_spec (data : vec) :
  fits data -> isValidJPEG data = Ok (Spec.is_valid data).
Proof.
  intros Hfit. unfold fits in Hfit. unfold isValidJPEG.
  destruct (size data <? 4) eqn:E.
  - apply Z.ltb_lt in E. unfold size in E.
    destruct data as [| a [| b [| c [| d rest]]]]; try reflexivity.
    simpl List.length in E. lia.
  - apply Z.ltb_ge in E.
    assert (HL : (4 <= List.length data)%nat) by (unfold size in E; lia).
    rewrite (at_inside data 0), (at_inside data 1) by lia.
    rewrite (wrap64_small (size data - 2)), (wrap64_small (size data - 1)) by lia.
    rewrite (at_inside data (size data - 2)), (at_inside data (size data - 1)) by lia.
    replace (Z.to_nat (size data - 2)) with (List.length data - 2)%nat
      by (unfold size; lia).
    replace (Z.to_nat (size data - 1)) with (List.length data - 1)%nat
      by (unfold size; lia).
    destruct (rev_last_two data) as [tl Hrev]; [lia |].
    unfold Spec.is_valid. rewrite Hrev. clear Hrev.
    set (y := nth (List.length data - 2) data x00).
    set (z := nth (List.length data - 1) data x00).
    destruct data as [| a [| b [| c [| d rest]]]]; simpl in HL; try lia.
    change (Z.to_nat 0) with 0%nat. change (Z.to_nat 1) with 1%nat.
    cbn [nth]. unfold orelse, ne, bind.
    change 255 with (u8 xff). change 216 with (u8 xd8).
    change 217 with (u8 xd9).
    rewrite !u8_eqb.
    destruct (Byte.eqb a xff), (Byte.eqb b xd8),
             (Byte.eqb y xff), (Byte.eqb z xd9); reflexivity.
Qed.

(** ** validateDimensions: the scan inside its window *)

Section Scan.

Variable w : MJPEGWriter.
Variable data : vec.
Hypothesis Hfit : fits data.

Lemma marker_test (i : nat) :
    (S i < List.length data)%nat ->
    andalso (eq (at_ data (Z.of_nat i)) 0xFF)
            (eq (at_ data (wrap64 (Z.of_nat i + 1))) 0xC0)
    = Ok (Spec.marker_at data i).
Proof.
    intros Hi. unfold fits, size in Hfit.
    rewrite wrap64_small by lia.
    replace (Z.of_nat i + 1) with (Z.of_nat (S i)) by lia.
    rewrite !at_nat by lia.
    unfold Spec.marker_at.
    destruct (nth_error data i) as [a |] eqn:Ea;
      [| apply nth_error_None in Ea; lia].
    destruct (nth_error data (S i)) as [b |] eqn:Eb;
      [| apply nth_error_None in Eb; lia].
    rewrite (nth_error_nth _ _ x00 Ea), (nth_error_nth _ _ x00 Eb).
    unfold andalso, eq, bind.
    change 255 with (u8 xff). change 192 with (u8 xc0).
    rewrite !u8_eqb.
    destruct (Byte.eqb a xff); reflexivity.
Qed.

Lemma on_sof0_inside (i : nat) :
    (i + 8 < List.length data)%nat ->
    on_sof0 w data (Z.of_nat i) = Ok (matched w data i).
Proof.
    intros Hi. unfold fits, size in Hfit. unfold on_sof0.
    rewrite !wrap64_small by lia.
    replace (Z.of_nat i + 5) with (Z.of_nat (i + 5)) by lia.
    replace (Z.of_nat i + 6) with (Z.of_nat (S (i + 5))) by lia.
    replace (Z.of_nat i + 7) with (Z.of_nat (i + 7)) by lia.
    replace (Z.of_nat i + 8) with (Z.of_nat (S (i + 7))) by lia.
    rewrite !at_nat by lia. cbn [bind].
    rewrite !shift_or_bytes by apply u8_range.
    unfold matched, Spec.be16. destruct (first_frame w); reflexivity.
Qed.

Lemma sof0_loop_window (n : nat) :
    forall (fuel i : nat),
      (8 <= List.length data)%nat ->
      (i + n = Spec.window data)%nat ->
      (n <= fuel)%nat ->
      sof0_loop fuel w data (Z.of_nat (Spec.window data)) (Z.of_nat i)
      = match Spec.find_from data n i with
        | Some k => on_sof0 w data (Z.of_nat k)
        | None => Ok (w, false)
        end.
Proof.
    induction n as [| n IH]; intros fuel i H8 Hin Hfuel.
    - assert ((Z.of_nat i <? Z.of_nat (Spec.window data)) = false) as E
        by (apply Z.ltb_ge; lia).
      destruct fuel; cbn [sof0_loop Spec.find_from]; rewrite E; reflexivity.
    - assert ((Z.of_nat i <? Z.of_nat (Spec.window data)) = true) as E
        by (apply Z.ltb_lt; lia).
      unfold Spec.window in Hin.
      destruct fuel as [| fuel]; [lia |].
      cbn [sof0_loop Spec.find_from]. rewrite E.
      rewrite marker_test by lia. cbn [bind].
      destruct (Spec.marker_at data i); [reflexivity |].
      unfold fits, size in Hfit.
      rewrite wrap64_small by lia.
      replace (Z.of_nat i + 1) with (Z.of_nat (S i)) by lia.
      apply IH; unfold Spec.window; lia.
Qed.

Lemma find_from_some (n : nat) :
    forall i k, Spec.find_from data n i = Some k ->
      (i <= k < i + n)%nat /\ Spec.marker_at data k = true /\
      forall j, (i <= j < k)%nat -> Spec.marker_at data j = false.
Proof.
    induction n as [| n IH]; intros i k H; cbn [Spec.find_from] in H.
    - discriminate.
    - destruct (Spec.marker_at data i) eqn:E.
      + injection H as <-. repeat split; try lia. exact E.
      + apply IH in H. destruct H as (Hr & Hm & Hbefore).
        repeat split; try lia; [exact Hm |].
        intros j Hj. destruct (Nat.eq_dec j i) as [-> | Hne];
          [exact E | apply Hbefore; lia].
Qed.

Lemma find_from_none (n : nat) :
    forall i, Spec.find_from data n i = None ->
      forall j, (i <= j < i + n)%nat -> Spec.marker_at data j = false.
Proof.
    induction n as [| n IH]; intros i H j Hj; cbn [Spec.find_from] in H.
    - lia.
    - destruct (Spec.marker_at data i) eqn:E; [discriminate |].
      destruct (Nat.eq_dec j i) as [-> | Hne];
        [exact E | apply (IH (S i) H); lia].
Qed.

Lemma find_from_first (n : nat) :
    forall i k, (i <= k < i + n)%nat ->
      Spec.marker_at data k = true ->
      (forall j, (i <= j < k)%nat -> Spec.marker_at data j = false) ->
      Spec.find_from data n i = Some k.
Proof.
    induction n as [| n IH]; intros i k Hk Hm Hbefore; [lia |].
    cbn [Spec.find_from].
    destruct (Nat.eq_dec i k) as [-> | Hne].
    - rewrite Hm. reflexivity.
    - rewrite (Hbefore i) by lia.
      apply IH; [lia | exact Hm |]. intros j Hj. apply Hbefore. lia.
Qed.

  (** At 8 bytes and more the loop bound is [size() - 8] without wrap, no
      read leaves the vector, and the loop is the forward search of
      section 4.2 followed by the decode at the first hit. *)
Lemma validateDimensions_window :
    (8 <= List.length data)%nat ->
    validateDimensions w data
    = match Spec.find_marker data with
      | Some k => Ok (matched w data k)
      | None => Ok (w, false)
      end.
Proof.
    intros H8. unfold validateDimensions, Spec.find_marker.
    assert (wrap64 (size data - 8) = Z.of_nat (Spec.window data)) as ->.
    { unfold fits, size in Hfit. unfold size, Spec.window.
      rewrite wrap64_small by lia. lia. }
    change 0 with (Z.of_nat 0).
    rewrite (sof0_loop_window (Spec.window data) (List.length data) 0%nat);
      try (unfold Spec.window; lia).
    destruct (Spec.find_from data (Spec.window data) 0) as [k |] eqn:E;
      [| reflexivity].
    apply find_from_some in E. destruct E as (Hk & _).
    apply on_sof0_inside. unfold Spec.window in Hk. lia.
Qed.

End Scan.

(** ** validateDimensions: vectors shorter than 8 bytes

    [size() - 8] wraps to [2^64 - 8 + size()], the loop bound no longer
    restrains [i], and the scan ends in a read past the vector's end. *)

Section ShortScan.

Variable w : MJPEGWriter.
Variable data : vec.
Hypothesis Hfit : fits data.
Hypothesis Hshort : (List.length data < 8)%nat.

Lemma short_limit : wrap64 (size data - 8) = 2 ^ 64 - 8 + size data.
Proof. unfold size. rewrite wrap64_neg; lia. Qed.

Lemma on_sof0_short (i : nat) :
    (i < List.length data)%nat ->
    exists k, size data <= k /\ on_sof0 w data (Z.of_nat i) = OutOfBounds k.
Proof.
    intros Hi. unfold on_sof0.
    rewrite !wrap64_small by lia.
    destruct (Z_lt_le_dec (Z.of_nat i + 5) (size data)) as [H5 | H5];
      [rewrite (at_inside data (Z.of_nat i + 5)) by lia; cbn [bind]
      | exists (Z.of_nat i + 5); rewrite at_outside by lia; split;
        [lia | reflexivity]].
    destruct (Z_lt_le_dec (Z.of_nat i + 6) (size data)) as [H6 | H6];
      [rewrite (at_inside data (Z.of_nat i + 6)) by lia; cbn [bind]
      | exists (Z.of_nat i + 6); rewrite at_outside by lia; split;
        [lia | reflexivity]].
    destruct (Z_lt_le_dec (Z.of_nat i + 7) (size data)) as [H7 | H7];
      [rewrite (at_inside data (Z.of_nat i + 7)) by lia; cbn [bind]
      | exists (Z.of_nat i + 7); rewrite at_outside by lia; split;
        [lia | reflexivity]].
    exists (Z.of_nat i + 8).
    rewrite (at_outside data (Z.of_nat i + 8)) by (unfold size; lia).
    split; [unfold size; lia | reflexivity].
Qed.

Lemma sof0_loop_short (n : nat) :
    forall (fuel i : nat),
      (i + n = List.length data)%nat ->
      (n <= fuel)%nat ->
      exists k, size data <= k /\
        sof0_loop fuel w data (wrap64 (size data - 8)) (Z.of_nat i)
        = OutOfBounds k.
Proof.
    rewrite short_limit.
    induction n as [| n IH]; intros fuel i Hin Hfuel.
    - exists (Z.of_nat i).
      assert ((Z.of_nat i <? 2 ^ 64 - 8 + size data) = true) as E
        by (apply Z.ltb_lt; unfold size; lia).
      split; [unfold size; lia |].
      destruct fuel; cbn [sof0_loop]; rewrite E;
        rewrite at_outside by (unfold size; lia); reflexivity.
    - assert ((Z.of_nat i <? 2 ^ 64 - 8 + size data) = true) as E
        by (apply Z.ltb_lt; unfold size; lia).
      destruct fuel as [| fuel]; [lia |].
      cbn [sof0_loop]. rewrite E.
      rewrite at_nat by lia.
      rewrite wrap64_small by lia.
      replace (Z.of_nat i + 1) with (Z.of_nat (S i)) by lia.
      unfold andalso, eq. cbn [bind].
      destruct (u8 (nth i data x00) =? 255); [| apply IH; lia].
      destruct (Nat.eq_dec (S i) (List.length data)) as [Hend | Hmid].
      + exists (Z.of_nat (S i)).
        rewrite at_outside by (unfold size; lia).
        split; [unfold size; lia | reflexivity].
      + rewrite at_nat by lia. cbn [bind].
        destruct (u8 (nth (S i) data x00) =? 192);
          [apply on_sof0_short; lia | apply IH; lia].
Qed.

Lemma validateDimensions_short :
    exists k, size data <= k /\ validateDimensions w data = OutOfBounds k.
Proof.
    unfold validateDimensions. change 0 with (Z.of_nat 0).
    apply (sof0_loop_short (List.length data)); lia.
Qed.

End ShortScan.

(** ** addFrame against section 4.3 *)

Lemma extract_some_long (data : vec) (d : Z * Z) :
  Spec.extract_dimensions data = Some d -> (9 <= List.length data)%nat.
Proof.
  unfold Spec.extract_dimensions, Spec.find_marker.
  destruct (Spec.find_from data (Spec.window data) 0) as [k |] eqn:E;
    [| discriminate].
  intros _. apply find_from_some in E. unfold Spec.window in E. lia.
Qed.

Lemma addFrame_invalid (w : MJPEGWriter) (data : vec) :
  fits data -> Spec.is_valid data = false ->
  addFrame w data = Ok (mkAdded w false [msg_invalid]).
Proof.
  intros Hfit Hv. unfold addFrame.
  rewrite (isValidJPEG_spec data Hfit), Hv. reflexivity.
Qed.

Lemma addFrame_long (w : MJPEGWriter) (data : vec) :
  fits data -> scan_in_bounds data ->
  addFrame w data = Ok (expected w data).
Proof.
  intros Hfit Hsafe. unfold addFrame, expected, Spec.reject_reason.
  rewrite (isValidJPEG_spec data Hfit). cbn [bind].
  destruct (Spec.is_valid data) eqn:Hv; cbn [negb]; [| reflexivity].
  rewrite (validateDimensions_window w data Hfit (Hsafe Hv)).
  unfold Spec.extract_dimensions, record_dimensions, reference_dimensions.
  unfold Spec.extract_dimensions.
  destruct (Spec.find_marker data) as [k |]; cbn [bind]; [| reflexivity].
  unfold matched.
  destruct (first_frame w); cbn [negb]; [reflexivity |].
  destruct ((Spec.be16 data (k + 7) =? width w)
            && (Spec.be16 data (k + 5) =? height w)); reflexivity.
Qed.

Lemma addFrame_short (w : MJPEGWriter) (data : vec) :
  fits data -> Spec.is_valid data = true -> (List.length data < 8)%nat ->
  exists k, size data <= k /\ addFrame w data = OutOfBounds k.
Proof.
  intros Hfit Hv Hshort.
  destruct (validateDimensions_short w data Hshort) as (k & Hk & E).
  exists k. split; [exact Hk |].
  unfold addFrame. rewrite (isValidJPEG_spec data Hfit), Hv. cbn [bind negb].
  rewrite E. reflexivity.
Qed.

Lemma addFrame_ok_in_bounds (w : MJPEGWriter) (data : vec) (a : added) :
  fits data -> addFrame w data = Ok a -> scan_in_bounds data.
Proof.
  intros Hfit E Hv.
  destruct (Nat.le_gt_cases 8 (List.length data)) as [H | H]; [exact H |].
  destruct (addFrame_short w data Hfit Hv H) as (k & _ & E').
  congruence.
Qed.

Lemma addFrame_ok (w : MJPEGWriter) (data : vec) (a : added) :
  fits data -> addFrame w data = Ok a -> a = expected w data.
Proof.
  intros Hfit E.
  pose proof (addFrame_ok_in_bounds w data a Hfit E) as Hsafe.
  rewrite (addFrame_long w data Hfit Hsafe) in E. congruence.
Qed.

Lemma addFrame_never_out_of_fuel (w : MJPEGWriter) (data : vec) :
  fits data -> addFrame w data <> OutOfFuel.
Proof.
  intros Hfit E.
  destruct (Spec.is_valid data) eqn:Hv.
  - destruct (Nat.le_gt_cases 8 (List.length data)) as [H | H].
    + rewrite addFrame_long in E; [discriminate | exact Hfit |].
      intros _. exact H.
    + destruct (addFrame_short w data Hfit Hv H) as (k & _ & E').
      congruence.
  - rewrite (addFrame_invalid w data Hfit Hv) in E. discriminate.
Qed.

(** Reading [expected] by its returned flag. *)
Lemma expected_rejected (w : MJPEGWriter) (data : vec) :
  ret (expected w data) = false -> writer (expected w data) = w.
Proof.
  unfold expected.
  destruct (Spec.reject_reason (reference_dimensions w) data) as [[| |] |];
    cbn; [reflexivity .. | discriminate].
Qed.

Lemma expected_accepted (w : MJPEGWriter) (data : vec) :
  ret (expected w data) = true ->
  Spec.reject_reason (reference_dimensions w) data = None /\
  writer (expected w data) = write (record_dimensions w data) data.
Proof.
  unfold expected.
  destruct (Spec.reject_reason (reference_dimensions w) data) as [[| |] |];
    cbn; try discriminate. intros _. split; reflexivity.
Qed.

Lemma accepted_facts (reference : option (Z * Z)) (data : vec) :
  Spec.reject_reason reference data = None ->
  Spec.is_valid data = true /\
  exists d, Spec.extract_dimensions data = Some d /\
            (reference = None \/ reference = Some d).
Proof.
  unfold Spec.reject_reason.
  destruct (Spec.is_valid data); cbn [negb]; [| discriminate].
  destruct (Spec.extract_dimensions data) as [[wd ht] |]; [| discriminate].
  intros H. split; [reflexivity |]. exists (wd, ht). split; [reflexivity |].
  destruct reference as [[rw rh] |]; [| left; reflexivity].
  destruct ((wd =? rw) && (ht =? rh)) eqn:E; [| discriminate].
  apply andb_prop in E. destruct E as [E1 E2].
  apply Z.eqb_eq in E1, E2. subst. right. reflexivity.
Qed.

Lemma record_dimensions_output (w : MJPEGWriter) (data : vec) :
  output (record_dimensions w data) = output w.
Proof.
  unfold record_dimensions.
  destruct (first_frame w); [| reflexivity].
  destruct (Spec.extract_dimensions data) as [[wd ht] |]; reflexivity.
Qed.

Lemma expected_output (w : MJPEGWriter) (data : vec) :
  output (writer (expected w data))
  = if ret (expected w data) then output w ++ data else output w.
Proof.
  unfold expected.
  destruct (Spec.reject_reason (reference_dimensions w) data) as [[| |] |];
    cbn; try reflexivity.
  rewrite record_dimensions_output. reflexivity.
Qed.

Lemma expected_reference (w : MJPEGWriter) (data : vec) :
  ret (expected w data) = true ->
  reference_dimensions (writer (expected w data))
  = Spec.extract_dimensions data /\
  (reference_dimensions w = None \/
   reference_dimensions w = Spec.extract_dimensions data) /\
  Spec.is_valid data = true /\
  Spec.extract_dimensions data <> None.
Proof.
  intros Hacc. apply expected_accepted in Hacc. destruct Hacc as [Hnone ->].
  apply accepted_facts in Hnone.
  destruct Hnone as (Hv & [wd ht] & Hex & Href).
  rewrite Hex. repeat split; try exact Hv; try discriminate.
  - unfold record_dimensions, reference_dimensions in *. rewrite Hex.
    destruct (first_frame w) eqn:F; cbn; rewrite ?F; [reflexivity |].
    destruct Href as [Href | Href]; [discriminate | exact Href].
  - exact Href.
Qed.

(** ** Sequences of addFrame calls *)

Lemma addFrames_cons_ok (w0 w : MJPEGWriter) (d : vec) (rest : list vec)
  (flags : list bool) :
  addFrames w0 (d :: rest) = Ok (w, flags) ->
  exists a flags', addFrame w0 d = Ok a /\
    addFrames (writer a) rest = Ok (w, flags') /\ flags = ret a :: flags'.
Proof.
  cbn [addFrames]. destruct (addFrame w0 d) as [a | k |]; cbn [bind];
    try discriminate.
  destruct (addFrames (writer a) rest) as [[w' flags'] | k |] eqn:Er;
    cbn [bind]; try discriminate.
  cbn. intros H. injection H as <- <-. exists a, flags'.
  split; [reflexivity | split; [exact Er | reflexivity]].
Qed.

Lemma addFrames_output (bufs : list vec) :
  forall w0 w flags,
    Forall fits bufs -> addFrames w0 bufs = Ok (w, flags) ->
    List.length flags = List.length bufs /\
    output w = output w0 ++ List.concat (accepted bufs flags).
Proof.
  induction bufs as [| d rest IH]; intros w0 w flags Hfits E.
  - cbn in E. injection E as <- <-. cbn. rewrite app_nil_r. split; reflexivity.
  - apply addFrames_cons_ok in E. destruct E as (a & flags' & Ea & Er & ->).
    inversion Hfits as [| ? ? Hd Hrest]; subst.
    apply (addFrame_ok w0 d a Hd) in Ea. subst a.
    destruct (IH _ _ _ Hrest Er) as [HL Hout].
    split; [cbn; rewrite HL; reflexivity |].
    rewrite Hout, expected_output. cbn [accepted].
    destruct (ret (expected w0 d)); cbn [List.concat];
      [rewrite app_assoc |]; reflexivity.
Qed.

Lemma addFrames_fault (bufs : list vec) :
  forall w0, Forall fits bufs ->
    match addFrames w0 bufs with
    | Ok _ => Forall scan_in_bounds bufs
    | OutOfBounds k =>
        Exists (fun d => Spec.is_valid d = true /\ size d <= k /\
                         (List.length d < 8)%nat) bufs
    | OutOfFuel => False
    end.
Proof.
  induction bufs as [| d rest IH]; intros w0 Hfits; [constructor |].
  inversion Hfits as [| ? ? Hd Hrest]; subst.
  cbn [addFrames].
  destruct (addFrame w0 d) as [a | k |] eqn:Ea; cbn [bind].
  - specialize (IH (writer a) Hrest).
    destruct (addFrames (writer a) rest) as [[w' flags'] | k |]; cbn [bind].
    + constructor; [exact (addFrame_ok_in_bounds w0 d a Hd Ea) | exact IH].
    + apply Exists_cons_tl. exact IH.
    + exact IH.
  - apply Exists_cons_hd.
    destruct (Spec.is_valid d) eqn:Hv.
    + destruct (Nat.le_gt_cases 8 (List.length d)) as [H | H].
      * rewrite addFrame_long in Ea; [discriminate | exact Hd |].
        intros _. exact H.
      * destruct (addFrame_short w0 d Hd Hv H) as (k' & Hk' & E').
        rewrite Ea in E'. injection E' as ->. repeat split; assumption.
    + rewrite (addFrame_invalid w0 d Hd Hv) in Ea. discriminate.
  - exact (addFrame_never_out_of_fuel w0 d Hd Ea).
Qed.

Lemma addFrames_completes (bufs : list vec) :
  forall w0, Forall fits bufs -> Forall scan_in_bounds bufs ->
    exists w flags, addFrames w0 bufs = Ok (w, flags).
Proof.
  induction bufs as [| d rest IH]; intros w0 Hfits Hsafe.
  - exists w0, []. reflexivity.
  - inversion Hfits as [| ? ? Hd Hrest]; subst.
    inversion Hsafe as [| ? ? Hsd Hsrest]; subst.
    destruct (IH (writer (expected w0 d)) Hrest Hsrest) as (w & flags & E).
    exists w, (ret (expected w0 d) :: flags).
    cbn [addFrames]. rewrite (addFrame_long w0 d Hd Hsd). cbn [bind].
    rewrite E. reflexivity.
Qed.

(** Offering only the frames that were accepted leads to the same writer:
    a refused frame leaves no trace in it. *)
Lemma addFrames_only_accepted (bufs : list vec) :
  forall w0 w flags,
    Forall fits bufs -> addFrames w0 bufs = Ok (w, flags) ->
    addFrames w0 (accepted bufs flags)
    = Ok (w, map (fun _ => true) (accepted bufs flags)).
Proof.
  induction bufs as [| d rest IH]; intros w0 w flags Hfits E.
  - cbn in E. injection E as <- <-. reflexivity.
  - apply addFrames_cons_ok in E. destruct E as (a & flags' & Ea & Er & ->).
    inversion Hfits as [| ? ? Hd Hrest]; subst.
    pose proof (addFrame_ok w0 d a Hd Ea) as Ha.
    cbn [accepted]. destruct (ret a) eqn:Hret.
    + cbn [addFrames map]. rewrite Ea. cbn [bind].
      rewrite (IH _ _ _ Hrest Er). cbn. rewrite Hret. reflexivity.
    + subst a. rewrite (expected_rejected w0 d Hret) in Er.
      exact (IH _ _ _ Hrest Er).
Qed.

Lemma addFrames_reference (bufs : list vec) :
  forall w0 w flags,
    Forall fits bufs -> addFrames w0 bufs = Ok (w, flags) ->
    reference_dimensions w
    = match reference_dimensions w0 with
      | Some r => Some r
      | None => match accepted bufs flags with
                | [] => None
                | d :: _ => Spec.extract_dimensions d
                end
      end.
Proof.
  induction bufs as [| d rest IH]; intros w0 w flags Hfits E.
  - cbn in E. injection E as <- <-. cbn.
    destruct (reference_dimensions w0); reflexivity.
  - apply addFrames_cons_ok in E. destruct E as (a & flags' & Ea & Er & ->).
    inversion Hfits as [| ? ? Hd Hrest]; subst.
    apply (addFrame_ok w0 d a Hd) in Ea. subst a.
    rewrite (IH _ _ _ Hrest Er). cbn [accepted].
    destruct (ret (expected w0 d)) eqn:Hret.
    + destruct (expected_reference w0 d Hret) as (Hr & Hprev & _ & Hsome).
      rewrite Hr.
      destruct (Spec.extract_dimensions d) as [dd |]; [| contradiction].
      destruct Hprev as [-> | ->]; reflexivity.
    + rewrite (expected_rejected w0 d Hret). reflexivity.
Qed.

(** Every accepted frame is structurally valid and carries the writer's
    reference dimensions. *)
Lemma addFrames_accepted_agree (bufs : list vec) :
  forall w0 w flags,
    Forall fits bufs -> addFrames w0 bufs = Ok (w, flags) ->
    forall d, In d (accepted bufs flags) ->
      Spec.is_valid d = true /\
      Spec.extract_dimensions d = reference_dimensions w.
Proof.
  induction bufs as [| d0 rest IH]; intros w0 w flags Hfits E d Hin.
  - cbn in E. injection E as <- <-. contradiction.
  - apply addFrames_cons_ok in E. destruct E as (a & flags' & Ea & Er & ->).
    inversion Hfits as [| ? ? Hd Hrest]; subst.
    apply (addFrame_ok w0 d0 a Hd) in Ea. subst a.
    cbn [accepted] in Hin.
    destruct (ret (expected w0 d0)) eqn:Hret;
      [| exact (IH _ _ _ Hrest Er d Hin)].
    destruct Hin as [<- | Hin]; [| exact (IH _ _ _ Hrest Er d Hin)].
    destruct (expected_reference w0 d0 Hret) as (Hr & _ & Hv & Hsome).
    split; [exact Hv |].
    rewrite (addFrames_reference _ _ _ _ Hrest Er), Hr.
    destruct (Spec.extract_dimensions d0); [reflexivity | contradiction].
Qed.

(** ** The boundary check in terms of the first and last two bytes *)

Lemma skipn_last_two (l : vec) :
  (2 <= List.length l)%nat ->
  skipn (List.length l - 2) l
  = [nth (List.length l - 2) l x00; nth (List.length l - 1) l x00].
Proof.
  intros H. destruct (rev_last_two l H) as [tl Hrev].
  set (y := nth (List.length l - 2) l x00) in *.
  set (z := nth (List.length l - 1) l x00) in *.
  assert (Hl : l = rev tl ++ [y; z]).
  { rewrite <- (rev_involutive l), Hrev. cbn [rev].
    rewrite <- app_assoc. reflexivity. }
  rewrite Hl at 1 2. rewrite length_app. cbn [List.length].
  replace (List.length (rev tl) + 2 - 2)%nat with (List.length (rev tl)) by lia.
  rewrite skipn_app, skipn_all, Nat.sub_diag. reflexivity.
Qed.

Lemma byte_eqb_eq (a b : byte) : Byte.eqb a b = true <-> a = b.
Proof.
  split; [apply Byte.byte_dec_bl |].
  intros ->. destruct (Byte.eqb b b) eqn:E; [reflexivity |].
  apply Byte.eqb_false in E. contradiction.
Qed.

Lemma is_valid_iff (data : vec) :
  Spec.is_valid data = true <->
  (4 <= List.length data)%nat /\
  firstn 2 data = [xff; xd8] /\
  skipn (List.length data - 2) data = [xff; xd9].
Proof.
  destruct data as [| a [| b [| c [| d rest]]]];
    try (cbn; split; [discriminate | intros [H _]; lia]).
  set (l := a :: b :: c :: d :: rest).
  assert (HL : (4 <= List.length l)%nat) by (cbn; lia).
  rewrite skipn_last_two by lia.
  destruct (rev_last_two l) as [tl Hrev]; [lia |].
  unfold Spec.is_valid. fold l. rewrite Hrev.
  set (y := nth (List.length l - 2) l x00).
  set (z := nth (List.length l - 1) l x00).
  cbn [firstn l].
  rewrite !andb_true_iff, !byte_eqb_eq.
  split.
  - intros [[-> ->] [-> ->]]. repeat split. exact HL.
  - intros (_ & Hf & Hs). injection Hf as -> ->. injection Hs as -> ->.
    repeat split.
Qed.

(** * The claims *)

(** C4. For every byte buffer, [isValidJPEG] returns [true] exactly when
    the buffer has at least 4 bytes, its first two bytes are (0xFF, 0xD8)
    and its last two bytes are (0xFF, 0xD9); it always returns, and two
    buffers with the same boundary bytes get the same answer whatever lies
    between. *)
Theorem isValidJPEG_boundary_check (data : vec) :
  fits data ->
  (exists b, isValidJPEG data = Ok b) /\
  (isValidJPEG data = Ok true <->
     (4 <= List.length data)%nat /\
     firstn 2 data = [xff; xd8] /\
     skipn (List.length data - 2) data = [xff; xd9]) /\
  (forall a b y z interior interior',
     data = a :: b :: interior ++ [y; z] ->
     fits (a :: b :: interior' ++ [y; z]) ->
     isValidJPEG (a :: b :: interior' ++ [y; z]) = isValidJPEG data).
Proof.
  intros Hfit. rewrite (isValidJPEG_spec data Hfit).
  split; [eexists; reflexivity |]. split.
  - rewrite <- is_valid_iff. split; [congruence | intros ->; reflexivity].
  - intros a b y z interior interior' -> Hfit'.
    rewrite (isValidJPEG_spec _ Hfit'). f_equal.
    set (l := a :: b :: interior ++ [y; z]).
    set (l' := a :: b :: interior' ++ [y; z]).
    assert (Hlast : forall m, skipn (List.length (a :: b :: m ++ [y; z]) - 2)
                                (a :: b :: m ++ [y; z]) = [y; z]).
    { intros m.
      change (a :: b :: m ++ [y; z]) with ((a :: b :: m) ++ [y; z]).
      rewrite length_app. cbn [List.length].
      replace (S (S (List.length m)) + 2 - 2)%nat
        with (List.length (a :: b :: m)) by (cbn; lia).
      rewrite skipn_app, skipn_all, Nat.sub_diag. reflexivity. }
    assert (Hlen : forall m, (4 <= List.length (a :: b :: m ++ [y; z]))%nat).
    { intros m. cbn [List.length]. rewrite length_app. cbn. lia. }
    destruct (Spec.is_valid l) eqn:E.
    + apply is_valid_iff in E. destruct E as (_ & Hf & Hs).
      apply is_valid_iff. split; [apply Hlen |]. split.
      * exact Hf.
      * unfold l'. rewrite Hlast. unfold l in Hs. rewrite Hlast in Hs.
        exact Hs.
    + destruct (Spec.is_valid l') eqn:E'; [| reflexivity].
      apply is_valid_iff in E'. destruct E' as (_ & Hf & Hs).
      assert (Spec.is_valid l = true) as Habs.
      { apply is_valid_iff. split; [apply Hlen |]. split.
        - exact Hf.
        - unfold l. rewrite Hlast. unfold l' in Hs. rewrite Hlast in Hs.
          exact Hs. }
      congruence.
Qed.

Lemma isValidJPEG_boundary_check_witness :
  fits frame_640x480 /\
  isValidJPEG frame_640x480 = Ok true /\
  isValidJPEG frame_320x240 = isValidJPEG frame_640x480.
Proof.
  assert (Hfit : fits frame_640x480) by (vm_compute; reflexivity).
  destruct (isValidJPEG_boundary_check frame_640x480 Hfit) as (_ & Hiff & Hind).
  split; [exact Hfit |]. split.
  - apply Hiff. repeat split. cbn. lia.
  - apply (Hind xff xd8 xff xd9
             [xff; xc0; x00; x11; x08; x01; xe0; x02; x80]
             [xff; xc0; x00; x11; x08; x00; xf0; x01; x40]).
    + reflexivity.
    + vm_compute; reflexivity.
Defined.

(** C5. When the first occurrence of the byte pair (0xFF, 0xC0), scanning
    forward from offset 0 inside the scan window, is at offset [i], the
    scan decodes height = buffer[i+5]*256 + buffer[i+6] and
    width = buffer[i+7]*256 + buffer[i+8]: a writer without dimensions
    records exactly this pair, a writer with dimensions compares exactly
    this pair with its own. *)
Theorem validateDimensions_decodes_big_endian
  (w : MJPEGWriter) (data : vec) (i : nat) :
  fits data ->
  Spec.first_marker_at data i ->
  let frame_height :=
    u8 (nth (i + 5) data x00) * 256 + u8 (nth (i + 6) data x00) in
  let frame_width :=
    u8 (nth (i + 7) data x00) * 256 + u8 (nth (i + 8) data x00) in
  validateDimensions w data
  = Ok (if first_frame w
        then ({| output := output w; first_frame := false;
                 width := frame_width; height := frame_height |}, true)
        else (w, (frame_width =? width w) && (frame_height =? height w))).
Proof.
  intros Hfit (Hwin & Hm & Hfirst) frame_height frame_width.
  assert (H8 : (8 <= List.length data)%nat) by (unfold Spec.window in Hwin; lia).
  rewrite (validateDimensions_window w data Hfit H8).
  unfold Spec.find_marker.
  rewrite (find_from_first data (Spec.window data) 0 i);
    [| lia | exact Hm | intros j Hj; apply Hfirst; lia].
  unfold matched, Spec.be16. subst frame_height frame_width.
  replace (S (i + 5)) with (i + 6)%nat by lia.
  replace (S (i + 7)) with (i + 8)%nat by lia.
  destruct (first_frame w); reflexivity.
Qed.

Lemma validateDimensions_decodes_big_endian_witness :
  fits frame_640x480 /\ Spec.first_marker_at frame_640x480 2 /\
  validateDimensions new_writer frame_640x480
  = Ok ({| output := []; first_frame := false;
           width := 640; height := 480 |}, true).
Proof.
  assert (Hfit : fits frame_640x480) by (vm_compute; reflexivity).
  assert (Hfirst : Spec.first_marker_at frame_640x480 2).
  { split; [cbn; lia |]. split; [reflexivity |].
    intros j Hj. destruct j as [| [| j]]; [reflexivity | reflexivity | lia]. }
  split; [exact Hfit |]. split; [exact Hfirst |].
  exact (validateDimensions_decodes_big_endian
           new_writer frame_640x480 2 Hfit Hfirst).
Defined.

(** C1 (the code departs from it). The claim: on every buffer that passes
    the validator the scan reads only inside the buffer, also when the
    buffer has 4 to 8 bytes.  The code: the 4-byte frame FF D8 FF D9 passes
    the validator, [size() - 8] wraps to 2^64 - 4, the loop runs past
    offset 3 and reads [jpeg_data[4]], one past the last byte. *)
Theorem validateDimensions_reads_past_empty_frame :
  isValidJPEG frame_empty = Ok true /\
  size frame_empty = 4 /\
  wrap64 (size frame_empty - 8) = 2 ^ 64 - 4 /\
  validateDimensions new_writer frame_empty = OutOfBounds 4.
Proof. repeat split; vm_compute; reflexivity. Qed.

(** C8 (the code departs from it). The claim: every structurally valid
    buffer without the marker in its scan window is refused by [addFrame]
    with nothing written.  The code: the 4-byte frame FF D8 FF D9 is
    structurally valid and has an empty scan window, and [addFrame] on it
    does not come back with a refusal: the scan reads [jpeg_data[4]]
    outside the buffer. *)
Theorem addFrame_empty_frame_leaves_buffer :
  Spec.is_valid frame_empty = true /\
  Spec.find_marker frame_empty = None /\
  Spec.reject_reason None frame_empty = Some Spec.DimensionsUnavailable /\
  addFrame new_writer frame_empty = OutOfBounds 4.
Proof. repeat split; vm_compute; reflexivity. Qed.

(** C10. Some frame is accepted by a fresh writer as its first frame while
    declaring height 0 and width 0; afterwards [getDimensions] returns
    (0,0), which is also what a writer that never accepted a frame
    returns. *)
Theorem zero_dimensions_do_not_mean_no_frame :
  exists (data : vec) (w : MJPEGWriter),
    Spec.extract_dimensions data = Some (0, 0) /\
    addFrame new_writer data = Ok (mkAdded w true []) /\
    output w = data /\
    getDimensions w = (0, 0) /\
    getDimensions new_writer = (0, 0).
Proof.
  exists frame_0x0.
  exists {| output := frame_0x0; first_frame := false;
            width := 0; height := 0 |}.
  repeat split; vm_compute; reflexivity.
Qed.

(** C7. A writer that holds reference dimensions and is offered a
    structurally valid frame whose extracted dimensions differ from them
    in either field returns [false] with the dimension diagnostic, and the
    writer is exactly as before: no byte appended, reference dimensions
    untouched. *)
Theorem addFrame_mismatch_rejected
  (w : MJPEGWriter) (data : vec) (wd ht : Z) :
  fits data ->
  first_frame w = false ->
  Spec.is_valid data = true ->
  Spec.extract_dimensions data = Some (wd, ht) ->
  wd <> width w \/ ht <> height w ->
  exists a, addFrame w data = Ok a /\
    ret a = false /\ cerr a = [msg_dimensions] /\
    output (writer a) = output w /\
    List.length (output (writer a)) = List.length (output w) /\
    reference_dimensions (writer a) = reference_dimensions w /\
    writer a = w.
Proof.
  intros Hfit Hff Hv Hex Hdiff.
  assert (Hsafe : scan_in_bounds data).
  { intros _. apply extract_some_long in Hex. lia. }
  exists (mkAdded w false [msg_dimensions]).
  rewrite (addFrame_long w data Hfit Hsafe).
  unfold expected, Spec.reject_reason, reference_dimensions.
  rewrite Hv, Hex, Hff. cbn [negb].
  assert ((wd =? width w) && (ht =? height w) = false) as ->.
  { apply andb_false_iff.
    destruct Hdiff as [H | H]; [left | right]; apply Z.eqb_neq; exact H. }
  cbn. repeat (split; try reflexivity).
  rewrite Hff. reflexivity.
Qed.

Lemma addFrame_mismatch_rejected_witness :
  exists a, addFrame writer_640x480 frame_320x240 = Ok a /\
    ret a = false /\ cerr a = [msg_dimensions] /\
    output (writer a) = output writer_640x480 /\
    List.length (output (writer a)) = List.length (output writer_640x480) /\
    reference_dimensions (writer a) = reference_dimensions writer_640x480 /\
    writer a = writer_640x480.
Proof.
  apply (addFrame_mismatch_rejected writer_640x480 frame_320x240 320 240).
  - vm_compute; reflexivity.
  - reflexivity.
  - reflexivity.
  - reflexivity.
  - left. cbn. lia.
Defined.




(** C3, as stated, fails: a frame without the marker and a frame with
    other dimensions, offered to a writer holding 640x480, fall under two
    different reject reasons of section 4.3, yet [addFrame] hands the
    caller the same result for both -- [false] and the same line on
    [std::cerr]. *)
Lemma addFrame_merges_two_reject_reasons :
  Spec.reject_reason (reference_dimensions writer_640x480) frame_no_sof0
  = Some Spec.DimensionsUnavailable /\
  Spec.reject_reason (reference_dimensions writer_640x480) frame_320x240
  = Some Spec.DimensionMismatch /\
  addFrame writer_640x480 frame_no_sof0
  = Ok (mkAdded writer_640x480 false [msg_dimensions]) /\
  addFrame writer_640x480 frame_320x240
  = addFrame writer_640x480 frame_no_sof0.
Proof. repeat split; vm_compute; reflexivity. Qed.

(** C3, amended. On every buffer on which the scan keeps inside the buffer,
    [addFrame] returns a [bool]; a refused frame gives [false], leaves the
    writer untouched and puts one line on [std::cerr]: "Invalid JPEG data
    detected" when the validator fails, and the one line "Frame dimensions
    mismatch or SOF0 marker not found" both when the marker is not found
    in the scan window and when the dimensions differ from the reference.
    An accepted frame gives [true] and no line. *)
Theorem addFrame_reports_by_bool_and_message (w : MJPEGWriter) (data : vec) :
  fits data ->
  scan_in_bounds data ->
  exists a, addFrame w data = Ok a /\
    match Spec.reject_reason (reference_dimensions w) data with
    | Some Spec.InvalidStructure =>
        ret a = false /\ writer a = w /\ cerr a = [msg_invalid]
    | Some Spec.DimensionsUnavailable =>
        ret a = false /\ writer a = w /\ cerr a = [msg_dimensions]
    | Some Spec.DimensionMismatch =>
        ret a = false /\ writer a = w /\ cerr a = [msg_dimensions]
    | None => ret a = true /\ cerr a = []
    end.
Proof.
  intros Hfit Hsafe. exists (expected w data).
  split; [exact (addFrame_long w data Hfit Hsafe) |].
  unfold expected.
  destruct (Spec.reject_reason (reference_dimensions w) data) as [[| |] |];
    cbn; repeat split.
Qed.

Lemma addFrame_reports_by_bool_and_message_witness :
  exists a, addFrame writer_640x480 frame_garbage = Ok a /\
    ret a = false /\ writer a = writer_640x480 /\ cerr a = [msg_invalid].
Proof.
  apply (addFrame_reports_by_bool_and_message writer_640x480 frame_garbage).
  - vm_compute; reflexivity.
  - intros H. vm_compute in H. discriminate.
Defined.

(** C2 (the code departs from it). The claim: for every sequence of
    buffers offered to a fresh writer the sink ends as the concatenation of
    the accepted frames, and a frame that is not accepted does not keep
    later frames from being accepted (F1, refused F2, F3 gives F1 ++ F3).
    The code: offered a 640x480 frame, the 4-byte frame FF D8 FF D9 and the
    640x480 frame again, the first is accepted, and on the second the scan
    reads [jpeg_data[4]] outside the buffer; that call has no result and
    the third frame is never reached, so the sink does not get
    F1 ++ F3. *)
Theorem addFrames_stops_at_short_valid_frame :
  addFrame new_writer frame_640x480 = Ok (mkAdded writer_640x480 true []) /\
  Spec.reject_reason (reference_dimensions writer_640x480) frame_empty
  = Some Spec.DimensionsUnavailable /\
  addFrame writer_640x480 frame_empty = OutOfBounds 4 /\
  addFrames new_writer [frame_640x480; frame_empty; frame_640x480]
  = OutOfBounds 4 /\
  addFrames new_writer [frame_640x480; frame_640x480]
  = Ok ({| output := frame_640x480 ++ frame_640x480; first_frame := false;
           width := 640; height := 480 |}, [true; true]).
Proof. repeat split; vm_compute; reflexivity. Qed.

(** Whenever a run of calls on a fresh writer returns, the sink holds
    exactly the concatenation, in offer order, of the full bytes of the
    frames whose call returned [true]; a refused frame adds nothing and
    has no bearing on later frames: offering the accepted frames alone
    ends in the same writer.  A run fails to return only at a structurally
    valid frame of fewer than 8 bytes. *)
Theorem addFrames_sink_is_accepted_concatenation (bufs : list vec) :
  Forall fits bufs ->
  match addFrames new_writer bufs with
  | Ok (w, flags) =>
      List.length flags = List.length bufs /\
      output w = List.concat (accepted bufs flags) /\
      addFrames new_writer (accepted bufs flags)
      = Ok (w, map (fun _ => true) (accepted bufs flags))
  | OutOfBounds _ =>
      Exists (fun d => Spec.is_valid d = true /\ (List.length d < 8)%nat) bufs
  | OutOfFuel => False
  end.
Proof.
  intros Hfits.
  pose proof (addFrames_fault bufs new_writer Hfits) as Hfault.
  destruct (addFrames new_writer bufs) as [[w flags] | k |] eqn:E.
  - destruct (addFrames_output bufs _ _ _ Hfits E) as [HL Hout].
    split; [exact HL |]. split; [exact Hout |].
    exact (addFrames_only_accepted bufs _ _ _ Hfits E).
  - apply Exists_exists in Hfault. destruct Hfault as (d & Hin & Hv & _ & Hs).
    apply Exists_exists. exists d. repeat split; assumption.
  - exact Hfault.
Qed.

Lemma addFrames_sink_is_accepted_concatenation_witness :
  Forall fits [frame_640x480; frame_garbage; frame_640x480] /\
  exists w,
    addFrames new_writer [frame_640x480; frame_garbage; frame_640x480]
    = Ok (w, [true; false; true]) /\
    output w = frame_640x480 ++ frame_640x480.
Proof.
  assert (Hfits : Forall fits [frame_640x480; frame_garbage; frame_640x480])
    by (repeat constructor; vm_compute; reflexivity).
  split; [exact Hfits |].
  pose proof (addFrames_sink_is_accepted_concatenation _ Hfits) as H.
  destruct (addFrames new_writer [frame_640x480; frame_garbage; frame_640x480])
    as [[w flags] | k |] eqn:E; [| vm_compute in E; discriminate ..].
  vm_compute in E. injection E as Hw Hflags. subst flags.
  destruct H as (_ & Hout & _).
  exists w. split; [reflexivity |].
  rewrite Hout. reflexivity.
Defined.



(** * Further properties of the code *)

Lemma be16_range (data : vec) (k : nat) : 0 <= Spec.be16 data k < 65536.
Proof.
  unfold Spec.be16.
  pose proof (u8_range (nth k data x00)).
  pose proof (u8_range (nth (S k) data x00)). lia.
Qed.

Lemma extract_range (data : vec) (wd ht : Z) :
  Spec.extract_dimensions data = Some (wd, ht) ->
  0 <= wd < 65536 /\ 0 <= ht < 65536.
Proof.
  unfold Spec.extract_dimensions.
  destruct (Spec.find_marker data) as [k |]; [| discriminate].
  intros H. injection H as <- <-. split; apply be16_range.
Qed.

Lemma accepted_length_le (bufs : list vec) :
  forall flags,
    (List.length (accepted bufs flags) <= List.length bufs)%nat.
Proof.
  induction bufs as [| d rest IH]; intros flags; [cbn; lia |].
  destruct flags as [| b flags]; [cbn; lia |].
  cbn [accepted]. specialize (IH flags).
  destruct b; cbn [List.length]; lia.
Qed.

Lemma expected_cerr (w : MJPEGWriter) (data : vec) :
  List.length (cerr (expected w data))
  = if ret (expected w data) then 0%nat else 1%nat.
Proof.
  unfold expected.
  destruct (Spec.reject_reason (reference_dimensions w) data) as [[| |] |];
    reflexivity.
Qed.

Lemma addFrames_none_accepted (bufs : list vec) :
  forall w0 w flags,
    Forall fits bufs -> addFrames w0 bufs = Ok (w, flags) ->
    accepted bufs flags = [] -> w = w0.
Proof.
  induction bufs as [| d rest IH]; intros w0 w flags Hfits E Hnone.
  - cbn in E. injection E as <- <-. reflexivity.
  - apply addFrames_cons_ok in E. destruct E as (a & flags' & Ea & Er & ->).
    inversion Hfits as [| ? ? Hd Hrest]; subst.
    apply (addFrame_ok w0 d a Hd) in Ea. subst a.
    cbn [accepted] in Hnone.
    destruct (ret (expected w0 d)) eqn:Hret; [discriminate |].
    rewrite (expected_rejected w0 d Hret) in Er.
    exact (IH _ _ _ Hrest Er Hnone).
Qed.

Lemma addFrames_accepted_dimensioned (bufs : list vec) :
  forall w0 w flags,
    Forall fits bufs -> addFrames w0 bufs = Ok (w, flags) ->
    forall d, In d (accepted bufs flags) ->
      Spec.extract_dimensions d <> None.
Proof.
  induction bufs as [| d0 rest IH]; intros w0 w flags Hfits E d Hin.
  - cbn in E. injection E as <- <-. contradiction.
  - apply addFrames_cons_ok in E. destruct E as (a & flags' & Ea & Er & ->).
    inversion Hfits as [| ? ? Hd Hrest]; subst.
    apply (addFrame_ok w0 d0 a Hd) in Ea. subst a.
    cbn [accepted] in Hin.
    destruct (ret (expected w0 d0)) eqn:Hret;
      [| exact (IH _ _ _ Hrest Er d Hin)].
    destruct Hin as [<- | Hin]; [| exact (IH _ _ _ Hrest Er d Hin)].
    destruct (expected_reference w0 d0 Hret) as (_ & _ & _ & Hsome).
    exact Hsome.
Qed.

Lemma reference_some (w : MJPEGWriter) (d : Z * Z) :
  reference_dimensions w = Some d ->
  first_frame w = false /\ getDimensions w = d.
Proof.
  unfold reference_dimensions, getDimensions.
  destruct (first_frame w); [discriminate |].
  intros H. injection H as <-. split; reflexivity.
Qed.

Lemma process_files_spec (files : list (string * vec)) :
  forall w p,
    Forall fits (map snd files) ->
    Forall scan_in_bounds (map snd files) ->
    exists w' flags lines,
      addFrames w (map snd files) = Ok (w', flags) /\
      process_files w p files
      = Ok (w', (p + List.length (accepted (map snd files) flags))%nat,
            lines) /\
      List.length lines
      = (2 * (List.length files
              - List.length (accepted (map snd files) flags)))%nat.
Proof.
  induction files as [| [name d] rest IH]; intros w p Hfits Hsafe.
  - exists w, [], []. cbn. rewrite Nat.add_0_r. repeat split.
  - cbn [map snd] in Hfits, Hsafe.
    inversion Hfits as [| ? ? Hd Hrest]; subst.
    inversion Hsafe as [| ? ? Hsd Hsrest]; subst.
    set (a := expected w d).
    destruct (IH (writer a) (if ret a then S p else p) Hrest Hsrest)
      as (w' & flags & lines & Ea & Ep & Hl).
    pose proof (accepted_length_le (map snd rest) flags) as Hle.
    rewrite length_map in Hle.
    exists w', (ret a :: flags).
    exists ((if ret a then cerr a
             else cerr a ++ [("Failed to add frame: " ++ name)%string])
            ++ lines).
    cbn [map snd addFrames process_files accepted].
    rewrite (addFrame_long w d Hd Hsd). fold a. cbn [bind].
    rewrite Ea, Ep. cbn [bind fst snd].
    pose proof (expected_cerr w d) as Hc. fold a in Hc.
    rewrite length_app.
    destruct (ret a); cbn [List.length].
    + rewrite Hc, Hl. split; [reflexivity |]. split; [| lia].
      do 3 f_equal. lia.
    + rewrite length_app, Hc, Hl. cbn [List.length].
      split; [reflexivity |]. split; [reflexivity | lia].
Qed.

Lemma validateDimensions_first_marker (w : MJPEGWriter) (data : vec) (i : nat) :
  fits data -> Spec.first_marker_at data i ->
  validateDimensions w data = Ok (matched w data i).
Proof.
  intros Hfit (Hwin & Hm & Hfirst).
  assert (H8 : (8 <= List.length data)%nat) by (unfold Spec.window in Hwin; lia).
  rewrite (validateDimensions_window w data Hfit H8).
  unfold Spec.find_marker.
  rewrite (find_from_first data (Spec.window data) 0 i);
    [reflexivity | lia | exact Hm | intros j Hj; apply Hfirst; lia].
Qed.

Lemma marker_at_app (data more : vec) (j : nat) :
  (S j < List.length data)%nat ->
  Spec.marker_at (data ++ more) j = Spec.marker_at data j.
Proof.
  intros H. unfold Spec.marker_at.
  rewrite !nth_error_app1 by lia. reflexivity.
Qed.

(** The scan stays inside the vector exactly when the vector has at least
    8 bytes; on a shorter one it ends in a read at or past [size()],
    whatever the bytes and the writer are, and never for lack of budget in
    the model. *)
Theorem validateDimensions_in_bounds_iff (w : MJPEGWriter) (data : vec) :
  fits data ->
  ((exists r, validateDimensions w data = Ok r) <->
   (8 <= List.length data)%nat) /\
  ((List.length data < 8)%nat ->
   exists k, size data <= k /\ validateDimensions w data = OutOfBounds k).
Proof.
  intros Hfit. split; [split |].
  - intros [r E].
    destruct (Nat.le_gt_cases 8 (List.length data)) as [H | H]; [exact H |].
    destruct (validateDimensions_short w data H) as (k & _ & E').
    congruence.
  - intros H8. rewrite (validateDimensions_window w data Hfit H8).
    destruct (Spec.find_marker data); eexists; reflexivity.
  - apply validateDimensions_short.
Qed.

Lemma validateDimensions_in_bounds_iff_witness :
  (exists r, validateDimensions new_writer frame_8_bytes = Ok r) /\
  exists k, size frame_7_bytes <= k /\
            validateDimensions new_writer frame_7_bytes = OutOfBounds k.
Proof.
  split.
  - apply (validateDimensions_in_bounds_iff new_writer frame_8_bytes).
    + vm_compute; reflexivity.
    + cbn. lia.
  - apply (validateDimensions_in_bounds_iff new_writer frame_7_bytes).
    + vm_compute; reflexivity.
    + cbn. lia.
Defined.

(** Every structurally valid frame of fewer than 8 bytes, offered to any
    writer, makes [addFrame] read at or past the end of the buffer. *)
Theorem addFrame_short_valid_frame_out_of_bounds
  (w : MJPEGWriter) (data : vec) :
  fits data -> isValidJPEG data = Ok true -> (List.length data < 8)%nat ->
  exists k, size data <= k /\ addFrame w data = OutOfBounds k.
Proof.
  intros Hfit Hv Hshort.
  rewrite (isValidJPEG_spec data Hfit) in Hv. injection Hv as Hv.
  exact (addFrame_short w data Hfit Hv Hshort).
Qed.

Lemma addFrame_short_valid_frame_out_of_bounds_witness :
  exists k, size frame_7_bytes <= k /\
            addFrame writer_640x480 frame_7_bytes = OutOfBounds k.
Proof.
  apply (addFrame_short_valid_frame_out_of_bounds writer_640x480 frame_7_bytes).
  - vm_compute; reflexivity.
  - vm_compute; reflexivity.
  - cbn. lia.
Defined.

(** A structurally valid frame of at least 8 bytes without the marker in
    its scan window is refused with the dimension diagnostic; the writer is
    untouched, so nothing is written and no dimensions are taken over. *)
Theorem addFrame_no_marker_rejected (w : MJPEGWriter) (data : vec) :
  fits data -> isValidJPEG data = Ok true ->
  (8 <= List.length data)%nat ->
  (forall i, (i < Spec.window data)%nat -> Spec.marker_at data i = false) ->
  addFrame w data = Ok (mkAdded w false [msg_dimensions]).
Proof.
  intros Hfit Hv H8 Hnone.
  rewrite (isValidJPEG_spec data Hfit) in Hv. injection Hv as Hv.
  rewrite (addFrame_long w data Hfit (fun _ => H8)).
  unfold expected, Spec.reject_reason, Spec.extract_dimensions.
  rewrite Hv. cbn [negb].
  destruct (Spec.find_marker data) as [k |] eqn:E; [| reflexivity].
  unfold Spec.find_marker in E. apply find_from_some in E.
  destruct E as (Hk & Hm & _). rewrite Hnone in Hm by lia. discriminate.
Qed.

Lemma addFrame_no_marker_rejected_witness :
  addFrame writer_640x480 frame_no_sof0
  = Ok (mkAdded writer_640x480 false [msg_dimensions]).
Proof.
  apply (addFrame_no_marker_rejected writer_640x480 frame_no_sof0).
  - vm_compute; reflexivity.
  - vm_compute; reflexivity.
  - cbn. lia.
  - intros i Hi. cbn in Hi.
    do 5 (destruct i as [| i]; [reflexivity |]). lia.
Defined.

(** A run of [addFrame] calls returns exactly when no offered buffer is a
    structurally valid frame of fewer than 8 bytes. *)
Theorem addFrames_returns_iff (w0 : MJPEGWriter) (bufs : list vec) :
  Forall fits bufs ->
  ((exists r, addFrames w0 bufs = Ok r) <-> Forall scan_in_bounds bufs).
Proof.
  intros Hfits. split.
  - intros [r E]. pose proof (addFrames_fault bufs w0 Hfits) as H.
    rewrite E in H. exact H.
  - intros Hsafe.
    destruct (addFrames_completes bufs w0 Hfits Hsafe) as (w & flags & E).
    exists (w, flags). exact E.
Qed.

Lemma addFrames_returns_iff_witness :
  exists r, addFrames new_writer [frame_garbage; frame_640x480] = Ok r.
Proof.
  apply (addFrames_returns_iff new_writer [frame_garbage; frame_640x480]).
  - repeat constructor; vm_compute; reflexivity.
  - apply Forall_cons; [intros H; vm_compute in H; discriminate |].
    apply Forall_cons; [intros _; cbn; lia | apply Forall_nil].
Defined.

(** Cross-frame consistency: after any run on a fresh writer, every frame
    that was accepted is structurally valid and declares exactly the
    dimensions that [getDimensions] reports. *)
Theorem accepted_frames_share_dimensions
  (bufs : list vec) (w : MJPEGWriter) (flags : list bool) (d : vec) :
  Forall fits bufs ->
  addFrames new_writer bufs = Ok (w, flags) ->
  In d (accepted bufs flags) ->
  isValidJPEG d = Ok true /\
  Spec.extract_dimensions d = Some (getDimensions w).
Proof.
  intros Hfits E Hin.
  destruct (addFrames_accepted_agree bufs _ _ _ Hfits E d Hin) as [Hv Hex].
  pose proof (addFrames_accepted_dimensioned bufs _ _ _ Hfits E d Hin) as Hs.
  assert (Hd : fits d).
  { rewrite Forall_forall in Hfits. apply Hfits.
    clear - Hin. revert flags Hin.
    induction bufs as [| d0 rest IH]; intros flags Hin; [contradiction |].
    destruct flags as [| b flags]; [contradiction |].
    cbn [accepted] in Hin. destruct b.
    - destruct Hin as [<- | Hin]; [left; reflexivity | right; eauto].
    - right. eauto. }
  split; [rewrite (isValidJPEG_spec d Hd), Hv; reflexivity |].
  rewrite Hex.
  destruct (reference_dimensions w) as [dd |] eqn:R.
  - apply reference_some in R. destruct R as [_ <-]. reflexivity.
  - congruence.
Qed.

Lemma accepted_frames_share_dimensions_witness :
  isValidJPEG frame_640x480 = Ok true /\
  Spec.extract_dimensions frame_640x480 = Some (640, 480).
Proof.
  apply (accepted_frames_share_dimensions
           [frame_garbage; frame_640x480; frame_320x240]
           writer_640x480 [false; true; false]).
  - repeat constructor; vm_compute; reflexivity.
  - vm_compute; reflexivity.
  - left. reflexivity.
Defined.

(** The frame loop of [main]: when no file holds a valid frame shorter
    than 8 bytes the loop returns; [processed] is the number of accepted
    frames and never exceeds the number of files; the writer is the one the
    [addFrame] calls produce; and every refused file accounts for exactly
    two lines on [std::cerr] ([addFrame]'s own and "Failed to add frame"),
    an accepted one for none. *)
Theorem process_files_counts_accepted
  (files : list (string * vec)) :
  Forall fits (map snd files) ->
  Forall scan_in_bounds (map snd files) ->
  exists w flags processed lines,
    process_files new_writer 0 files = Ok (w, processed, lines) /\
    addFrames new_writer (map snd files) = Ok (w, flags) /\
    processed = List.length (accepted (map snd files) flags) /\
    (processed <= List.length files)%nat /\
    List.length lines = (2 * (List.length files - processed))%nat.
Proof.
  intros Hfits Hsafe.
  destruct (process_files_spec files new_writer 0%nat Hfits Hsafe)
    as (w & flags & lines & Ea & Ep & Hl).
  exists w, flags, (List.length (accepted (map snd files) flags)), lines.
  split; [exact Ep |]. split; [exact Ea |]. split; [reflexivity |].
  split; [| exact Hl].
  pose proof (accepted_length_le (map snd files) flags) as H.
  rewrite length_map in H. exact H.
Qed.

Lemma process_files_counts_accepted_witness :
  exists w lines,
    process_files new_writer 0
      [("a.jpg"%string, frame_640x480); ("b.jpg"%string, frame_320x240);
       ("c.jpg"%string, frame_640x480)]
    = Ok (w, 2%nat, lines) /\
    List.length lines = 2%nat.
Proof.
  destruct (process_files_counts_accepted
              [("a.jpg"%string, frame_640x480); ("b.jpg"%string, frame_320x240);
               ("c.jpg"%string, frame_640x480)])
    as (w & flags & processed & lines & Ep & Ea & Hp & _ & Hl).
  - repeat constructor; vm_compute; reflexivity.
  - repeat (apply Forall_cons; [intros _; cbn; lia |]). apply Forall_nil.
  - vm_compute in Ea. injection Ea as Hw Hflags. subst flags.
    cbn in Hp. subst processed.
    exists w, lines. split; [exact Ep | exact Hl].
Defined.

(** Whatever is offered to a fresh writer, the recorded width and height
    stay 16-bit values: each is decoded from two bytes. *)
Theorem recorded_dimensions_are_16_bit
  (bufs : list vec) (w : MJPEGWriter) (flags : list bool) :
  Forall fits bufs ->
  addFrames new_writer bufs = Ok (w, flags) ->
  0 <= width w < 65536 /\ 0 <= height w < 65536.
Proof.
  intros Hfits E.
  pose proof (addFrames_reference bufs _ _ _ Hfits E) as Href.
  cbn in Href.
  destruct (accepted bufs flags) as [| f rest] eqn:Hacc.
  - rewrite (addFrames_none_accepted bufs _ _ _ Hfits E Hacc). cbn. lia.
  - destruct (Spec.extract_dimensions f) as [[wd ht] |] eqn:Hex.
    + apply reference_some in Href. destruct Href as [_ Hd].
      unfold getDimensions in Hd. injection Hd as -> ->.
      exact (extract_range f wd ht Hex).
    + exfalso.
      apply (addFrames_accepted_dimensioned bufs _ _ _ Hfits E f);
        [rewrite Hacc; left; reflexivity | exact Hex].
Qed.

Lemma recorded_dimensions_are_16_bit_witness :
  0 <= width writer_640x480 < 65536 /\ 0 <= height writer_640x480 < 65536.
Proof.
  apply (recorded_dimensions_are_16_bit [frame_640x480] writer_640x480 [true]).
  - repeat constructor; vm_compute; reflexivity.
  - vm_compute; reflexivity.
Defined.

(** The writer still waits for its first frame exactly when no frame was
    accepted; then it is the fresh writer: nothing in the sink and
    [getDimensions] = (0,0). *)
Theorem nothing_accepted_nothing_written
  (bufs : list vec) (w : MJPEGWriter) (flags : list bool) :
  Forall fits bufs ->
  addFrames new_writer bufs = Ok (w, flags) ->
  (first_frame w = true <-> accepted bufs flags = []) /\
  (accepted bufs flags = [] ->
   w = new_writer /\ output w = [] /\ getDimensions w = (0, 0)).
Proof.
  intros Hfits E.
  assert (Hfresh : accepted bufs flags = [] -> w = new_writer)
    by exact (addFrames_none_accepted bufs _ _ _ Hfits E).
  split.
  - split.
    + intros Hff.
      pose proof (addFrames_reference bufs _ _ _ Hfits E) as Href.
      cbn in Href. unfold reference_dimensions in Href. rewrite Hff in Href.
      destruct (accepted bufs flags) as [| f rest] eqn:Hacc; [reflexivity |].
      exfalso.
      apply (addFrames_accepted_dimensioned bufs _ _ _ Hfits E f);
        [rewrite Hacc; left; reflexivity | congruence].
    + intros Hacc. rewrite (Hfresh Hacc). reflexivity.
  - intros Hacc. rewrite (Hfresh Hacc). repeat split.
Qed.

Lemma nothing_accepted_nothing_written_witness :
  exists w, addFrames new_writer [frame_garbage; frame_no_sof0]
            = Ok (w, [false; false]) /\
    first_frame w = true /\ output w = [] /\ getDimensions w = (0, 0).
Proof.
  exists new_writer.
  assert (E : addFrames new_writer [frame_garbage; frame_no_sof0]
              = Ok (new_writer, [false; false])) by (vm_compute; reflexivity).
  destruct (nothing_accepted_nothing_written
              [frame_garbage; frame_no_sof0] new_writer [false; false])
    as (Hiff & Hfresh); [repeat constructor; vm_compute; reflexivity
                        | exact E |].
  split; [exact E |]. split; [apply Hiff; reflexivity |].
  destruct (Hfresh eq_refl) as (_ & Ho & Hd). split; assumption.
Defined.

(** A frame that was just accepted is accepted again when offered a second
    time: the writer does not reject duplicates, and the sink then ends
    with two copies of it. *)
Theorem accepted_frame_is_accepted_again
  (w : MJPEGWriter) (data : vec) (a : added) :
  fits data ->
  addFrame w data = Ok a -> ret a = true ->
  exists a', addFrame (writer a) data = Ok a' /\ ret a' = true /\
    output (writer a') = output w ++ data ++ data /\
    getDimensions (writer a') = getDimensions (writer a).
Proof.
  intros Hfit Ea Hret.
  pose proof (addFrame_ok_in_bounds w data a Hfit Ea) as Hsafe.
  apply (addFrame_ok w data a Hfit) in Ea. subst a.
  destruct (expected_reference w data Hret) as (Hr & _ & Hv & Hsome).
  pose proof (expected_output w data) as Hout. rewrite Hret in Hout.
  set (w1 := writer (expected w data)) in *.
  exists (expected w1 data).
  split; [exact (addFrame_long w1 data Hfit Hsafe) |].
  destruct (Spec.extract_dimensions data) as [[wd ht] |] eqn:Hex;
    [| contradiction].
  destruct (reference_some w1 (wd, ht) Hr) as [Hff Hdims].
  unfold expected, Spec.reject_reason. rewrite Hv, Hex, Hr. cbn [negb].
  rewrite !Z.eqb_refl. cbn.
  unfold record_dimensions. rewrite Hff, Hout, <- app_assoc.
  repeat split.
Qed.

Lemma accepted_frame_is_accepted_again_witness :
  exists a', addFrame writer_640x480 frame_640x480 = Ok a' /\ ret a' = true /\
    output (writer a') = [] ++ frame_640x480 ++ frame_640x480 /\
    getDimensions (writer a') = (640, 480).
Proof.
  apply (accepted_frame_is_accepted_again new_writer frame_640x480
           (mkAdded writer_640x480 true [])).
  - vm_compute; reflexivity.
  - vm_compute; reflexivity.
  - reflexivity.
Defined.

(** Once the marker sits inside the scan window, bytes appended to the
    buffer do not change what the dimension check does: the first
    occurrence decides, nothing after its 9 bytes is looked at. *)
Theorem validateDimensions_ignores_appended_bytes
  (w : MJPEGWriter) (data more : vec) (i : nat) :
  fits (data ++ more) ->
  Spec.first_marker_at data i ->
  validateDimensions w (data ++ more) = validateDimensions w data.
Proof.
  intros Hfit Hfirst.
  assert (Hfit0 : fits data).
  { unfold fits, size in *. rewrite length_app in Hfit. lia. }
  pose proof Hfirst as (Hwin & Hm & Hbefore).
  unfold Spec.window in Hwin.
  assert (Hfirst' : Spec.first_marker_at (data ++ more) i).
  { split; [unfold Spec.window; rewrite length_app; lia |]. split.
    - rewrite marker_at_app by lia. exact Hm.
    - intros j Hj. rewrite marker_at_app by lia. apply Hbefore. exact Hj. }
  rewrite (validateDimensions_first_marker w _ i Hfit Hfirst').
  rewrite (validateDimensions_first_marker w _ i Hfit0 Hfirst).
  unfold matched, Spec.be16.
  rewrite !app_nth1 by lia. reflexivity.
Qed.

Lemma validateDimensions_ignores_appended_bytes_witness :
  validateDimensions new_writer (frame_640x480 ++ frame_320x240)
  = validateDimensions new_writer frame_640x480.
Proof.
  apply (validateDimensions_ignores_appended_bytes
           new_writer frame_640x480 frame_320x240 2).
  - vm_compute; reflexivity.
  - split; [cbn; lia |]. split; [reflexivity |].
    intros j Hj. destruct j as [| [| j]]; [reflexivity | reflexivity | lia].
Defined.
